(** * Resource API (src/main.py): users, products and orders over one store

    A shallow embedding of the FastAPI application of [src/main.py]: the
    pydantic input shapes with their field constraints, the three tables,
    the fifteen route handlers written in a monad over the database,
    and the request pipeline around them (body validation, handler,
    response-model validation).

    Conventions.
    - A Python [int] is a [Z]; a Python [str] is a [string] whose [String.length]
      counts its characters; a Python [float] is an IEEE-754 value
      ([spec_float]); a [datetime] is a count of microseconds on the
      process's clock.
    - A table is a finite map from the primary key [id] to the remaining
      columns, which is what [primary_key=True] makes of it.
    - [database.execute] / [fetch_one] / [fetch_all] are computations in the
      monad [DB]: they read and write the database and may raise.  The
      driver binds an integer only when it lies in the signed 64-bit range
      and raises OverflowError otherwise; an exception that no handler
      catches is answered with status 500 and nothing is written.
    - The connection is assumed to be up and the store to have room: a
      lost connection and SQLITE_FULL are outside the model. *)

From Stdlib Require Import ZArith String List.
From Stdlib.Floats Require Import SpecFloat.
From stdpp Require Import gmap strings list fin_maps.

Local Open Scope string_scope.
Local Open Scope list_scope.
Local Open Scope Z_scope.
#[local] Set Warnings "-register-all".

(** ** JSON values and HTTP responses *)

(** [JDate d] is the datetime [d], which the encoder writes as its ISO
    text.  [JFloat x] may hold any float, also an infinity or a NaN, which
    JSON text cannot express: see [json_compliant]. *)
Inductive json : Type :=
| JNull
| JInt (n : Z)
| JFloat (x : spec_float)
| JStr (s : string)
| JDate (d : Z)
| JArr (items : list json)
| JObj (members : list (string * json)).

(** [json.dumps(allow_nan=False)], which renders the content of a
    [JSONResponse], raises ValueError on a float that is not finite. *)
Definition is_finite (x : spec_float) : bool :=
  match x with
  | S754_zero _ | S754_finite _ _ _ => true
  | S754_infinity _ | S754_nan => false
  end.

Definition json_compliant (j : json) : bool :=
  match j with
  | JFloat x => is_finite x
  | _ => true
  end.

(** A validation error: where it is ([loc], such as body / password),
    which constraint failed, and the value that was rejected. *)
Inductive loc_item : Type :=
| Key (name : string)
| Index (position : nat).

Inductive error_type : Type :=
| string_too_long (max_length : nat)
| string_too_short (min_length : nat)
| greater_than (gt : spec_float).

Record error_detail : Type := ErrorDetail {
  loc : list loc_item;
  type : error_type;
  input : json
}.

(** What the application answers: [JSONResponse content status_code], or
    one of FastAPI's two validation faults, or the answer to an exception
    that nothing caught.  [RequestValidationError] is rendered by the
    framework as status 422 with the error list under ["detail"];
    [ResponseValidationError] is an unhandled server fault, status 500;
    [InternalServerError] is what the server's error middleware answers
    when a handler, or the rendering of an answer, raises. *)
Inductive response : Type :=
| JSONResponse (content : json) (status_code : Z)
| RequestValidationError (errors : list error_detail)
| ResponseValidationError (errors : list error_detail)
| InternalServerError.

Definition status_of (r : response) : Z :=
  match r with
  | JSONResponse _ code => code
  | RequestValidationError _ => 422
  | ResponseValidationError _ => 500
  | InternalServerError => 500
  end.

(** ** The store: SQLite tables keyed by an integer primary key *)

Module Sqlite.

Abbreviation table A := (gmap Z A).

(** The largest [id] in use, [None] for an empty table. *)
Definition max_rowid {A} (t : table A) : option Z :=
  foldr (fun k acc => Some (match acc with
                            | None => k
                            | Some m => Z.max k m
                            end))
        None (map_to_list t).*1.

(** The INTEGER range: signed 64-bit. *)
Definition max_integer : Z := 2 ^ 63 - 1.
Definition min_integer : Z := - 2 ^ 63.

Definition fits_integer (i : Z) : bool :=
  bool_decide (min_integer ≤ i ≤ max_integer).

(** The smallest positive id that is not in use: one of 1, ..., n + 1 for
    a table of n rows. *)
Definition unused_rowid {A} (t : table A) : Z :=
  match list_find (fun k => t !! k = None)
          (seqZ 1 (Z.of_nat (S (size t)))) with
  | Some (_, k) => k
  | None => 0
  end.

(** [INTEGER PRIMARY KEY] without a value: 1 for an empty table, one more
    than the largest [id] in use below the ceiling.  When the largest id
    is the ceiling, SQLite draws positive candidates at random until one
    is not in use: the model takes the smallest unused one, which stands
    for the draw. *)
Definition next_rowid {A} (t : table A) : Z :=
  match max_rowid t with
  | None => 1
  | Some m => if decide (m < max_integer) then m + 1 else unused_rowid t
  end.

(** [INSERT INTO t VALUES (...)]: the new table and [lastrowid]. *)
Definition insert {A} (row : A) (t : table A) : table A * Z :=
  let i := next_rowid t in (<[i := row]> t, i).

(** [SELECT * FROM t]. *)
Definition select_all {A} (t : table A) : list (Z * A) := map_to_list t.

(** [SELECT * FROM t WHERE id = i], first row. *)
Definition select_where_id {A} (i : Z) (t : table A) : option (Z * A) :=
  (fun row => (i, row)) <$> t !! i.

(** [UPDATE t SET ... WHERE id = i]: rewrites the row when there is one. *)
Definition update_where_id {A} (i : Z) (row : A) (t : table A) : table A :=
  alter (fun _ => row) i t.

(** [DELETE FROM t WHERE id = i]. *)
Definition delete_where_id {A} (i : Z) (t : table A) : table A :=
  delete i t.

End Sqlite.

(** ** Schema and validation layer (main.py, lines 18-47) *)

Definition datetime : Type := Z.

Record NewUser : Type := {
  first_name : string;
  last_name : string;
  email : string;
  password : string
}.

(** [class User(NewUser): id: int] *)
Record User : Type := {
  User_base : NewUser;
  User_id : Z
}.

Record NewProduct : Type := {
  name : string;
  description : string;
  price : spec_float
}.

Record Product : Type := {
  Product_base : NewProduct;
  Product_id : Z
}.

Record NewOrder : Type := {
  user_id : Z;
  product_id : Z;
  date : datetime;
  status : string
}.

Record Order : Type := {
  Order_base : NewOrder;
  Order_id : Z
}.

(** A JSON body for [NewOrder]: [date] and [status] have defaults and may
    be left out. *)
Record NewOrder_body : Type := {
  body_user_id : Z;
  body_product_id : Z;
  body_date : option datetime;
  body_status : option string
}.

(** [Field(max_length=n)], [Field(min_length=n)], [Field(gt=0)]: the
    errors a value raises at location [at_]. *)
Definition max_length (n : nat) (at_ : list loc_item) (s : string)
  : list error_detail :=
  if decide (String.length s ≤ n)%nat then []
  else [ErrorDetail at_ (string_too_long n) (JStr s)].

Definition min_length (n : nat) (at_ : list loc_item) (s : string)
  : list error_detail :=
  if decide (n ≤ String.length s)%nat then []
  else [ErrorDetail at_ (string_too_short n) (JStr s)].

Definition float_zero : spec_float := S754_zero false.

Definition gt (bound : spec_float) (at_ : list loc_item) (x : spec_float)
  : list error_detail :=
  if SFltb bound x then []
  else [ErrorDetail at_ (greater_than bound) (JFloat x)].

(** pydantic checks every field and reports all failures, in field order. *)
Definition NewUser_errors (at_ : list loc_item) (u : NewUser)
  : list error_detail :=
  max_length 50 (at_ ++ [Key "first_name"]) (first_name u) ++
  max_length 150 (at_ ++ [Key "last_name"]) (last_name u) ++
  max_length 150 (at_ ++ [Key "email"]) (email u) ++
  min_length 6 (at_ ++ [Key "password"]) (password u).

Definition User_errors (at_ : list loc_item) (u : User) : list error_detail :=
  NewUser_errors at_ (User_base u).

Definition NewProduct_errors (at_ : list loc_item) (p : NewProduct)
  : list error_detail :=
  max_length 100 (at_ ++ [Key "name"]) (name p) ++
  max_length 1000 (at_ ++ [Key "description"]) (description p) ++
  gt float_zero (at_ ++ [Key "price"]) (price p).

Definition Product_errors (at_ : list loc_item) (p : Product)
  : list error_detail :=
  NewProduct_errors at_ (Product_base p).

(** [NewOrder] declares no constraint. *)
Definition NewOrder_errors (at_ : list loc_item) (o : NewOrder)
  : list error_detail := [].

Definition Order_errors (at_ : list loc_item) (o : Order) : list error_detail :=
  NewOrder_errors at_ (Order_base o).

(** [List[M]]: the errors of each element, located by its index. *)
Definition List_errors {A} (errors : list loc_item → A → list error_detail)
    (at_ : list loc_item) (l : list A) : list error_detail :=
  concat (imap (fun i a => errors (at_ ++ [Index i]) a) l).

(** Building a [NewOrder] from a body.  The class body of [NewOrder] is
    run once, when [main.py] is imported: [Field(default=datetime.now())]
    (line 42) calls [datetime.now()] there and keeps the value it gets,
    [date_default], as the default of every later request. *)
Definition NewOrder_of_body (date_default : datetime) (b : NewOrder_body)
  : NewOrder :=
  {| user_id := body_user_id b;
     product_id := body_product_id b;
     date := default date_default (body_date b);
     status := default "created" (body_status b) |}.

(** The response model writes a float that is not finite as [null]. *)
Definition float_json (x : spec_float) : json :=
  if is_finite x then JFloat x else JNull.

(** [model_dump()] and the JSON rendering of the stored shapes. *)
Definition NewUser_dump (u : NewUser) : list (string * json) :=
  [("first_name", JStr (first_name u)); ("last_name", JStr (last_name u));
   ("email", JStr (email u)); ("password", JStr (password u))].

Definition NewProduct_dump (p : NewProduct) : list (string * json) :=
  [("name", JStr (name p)); ("description", JStr (description p));
   ("price", float_json (price p))].

Definition NewOrder_dump (o : NewOrder) : list (string * json) :=
  [("user_id", JInt (user_id o)); ("product_id", JInt (product_id o));
   ("date", JDate (date o)); ("status", JStr (status o))].

Definition User_json (u : User) : json :=
  JObj (NewUser_dump (User_base u) ++ [("id", JInt (User_id u))]).

Definition Product_json (p : Product) : json :=
  JObj (NewProduct_dump (Product_base p) ++ [("id", JInt (Product_id p))]).

Definition Order_json (o : Order) : json :=
  JObj (NewOrder_dump (Order_base o) ++ [("id", JInt (Order_id o))]).

(** ** Tables (main.py, lines 50-77) and the database connection *)

Record users_row : Type := {
  users_first_name : string;
  users_last_name : string;
  users_email : string;
  users_password : string
}.

Record products_row : Type := {
  products_name : string;
  products_description : string;
  products_price : spec_float
}.

(** [orders.date] is a [String] column: the driver writes a [datetime] as
    its ISO text and the response model reads that text back, so the row
    keeps the timestamp.  The two foreign keys are declared only: the
    connection never turns their enforcement on. *)
Record orders_row : Type := {
  orders_user_id : Z;
  orders_product_id : Z;
  orders_date : datetime;
  orders_status : string
}.

Record database : Type := Database {
  users_rows : gmap Z users_row;
  products_rows : gmap Z products_row;
  orders_rows : gmap Z orders_row
}.

Definition empty_database : database := Database ∅ ∅ ∅.

(** A [sqlalchemy.Table]: where its rows live in the database, and
    whether the driver can bind the values of a row (every integer among
    them must fit an INTEGER; strings, floats and dates always bind). *)
Record Table (R : Type) : Type := {
  rows : database → gmap Z R;
  with_rows : gmap Z R → database → database;
  binds : R → bool
}.
Arguments rows {R} _ _.
Arguments with_rows {R} _ _ _.
Arguments binds {R} _ _.

Definition users : Table users_row :=
  {| rows := users_rows;
     with_rows t d := Database t (products_rows d) (orders_rows d);
     binds _ := true |}.

Definition products : Table products_row :=
  {| rows := products_rows;
     with_rows t d := Database (users_rows d) t (orders_rows d);
     binds _ := true |}.

Definition orders : Table orders_row :=
  {| rows := orders_rows;
     with_rows t d := Database (users_rows d) (products_rows d) t;
     binds row := Sqlite.fits_integer (orders_user_id row)
                  && Sqlite.fits_integer (orders_product_id row) |}.

(** Handlers run against the connection: they return a value or raise,
    and leave a database. *)
Inductive exception : Type := OverflowError.

Inductive outcome (A : Type) : Type :=
| Returns (a : A)
| Raises (e : exception).
Arguments Returns {A} a.
Arguments Raises {A} e.

Definition DB (A : Type) : Type := database → outcome A * database.

#[global] Instance DB_ret : MRet DB := fun A a d => (Returns a, d).
#[global] Instance DB_bind : MBind DB :=
  fun A B f m d =>
    match m d with
    | (Returns a, d') => f a d'
    | (Raises e, d') => (Raises e, d')
    end.

(** [database.execute(t.insert().values(...))] answers the new [id].  The
    values are bound first: when one does not fit, OverflowError is raised
    and no statement runs. *)
Definition execute_insert {R} (t : Table R) (values : R) : DB Z :=
  fun d =>
    if binds t values then
      let '(t', last_id) := Sqlite.insert values (rows t d) in
      (Returns last_id, with_rows t t' d)
    else (Raises OverflowError, d).

(** [database.execute(t.update().where(t.c.id == i).values(...))]: the
    values and the id are bound. *)
Definition execute_update {R} (t : Table R) (i : Z) (values : R) : DB unit :=
  fun d =>
    if binds t values && Sqlite.fits_integer i then
      (Returns tt,
       with_rows t (Sqlite.update_where_id i values (rows t d)) d)
    else (Raises OverflowError, d).

(** [database.execute(t.delete().where(t.c.id == i))]: the id is bound. *)
Definition execute_delete {R} (t : Table R) (i : Z) : DB unit :=
  fun d =>
    if Sqlite.fits_integer i then
      (Returns tt, with_rows t (Sqlite.delete_where_id i (rows t d)) d)
    else (Raises OverflowError, d).

(** [database.fetch_all(t.select())] *)
Definition fetch_all {R} (t : Table R) : DB (list (Z * R)) :=
  fun d => (Returns (Sqlite.select_all (rows t d)), d).

(** [database.fetch_one(t.select().where(t.c.id == i))], [None] when no
    row matches; an [i] that does not fit an INTEGER cannot be bound and
    raises OverflowError.  The ids of an SQLite table all fit; on a map
    that holds one that does not, the model reads the row, so that a row
    the store holds can always be read back. *)
Definition fetch_one {R} (t : Table R) (i : Z) : DB (option (Z * R)) :=
  fun d =>
    match Sqlite.select_where_id i (rows t d) with
    | Some record => (Returns (Some record), d)
    | None =>
        if Sqlite.fits_integer i then (Returns None, d)
        else (Raises OverflowError, d)
    end.

(** Reading a fetched record through a response model: columns to fields,
    by name. *)
Definition User_of_record (r : Z * users_row) : User :=
  {| User_base := {| first_name := users_first_name r.2;
                     last_name := users_last_name r.2;
                     email := users_email r.2;
                     password := users_password r.2 |};
     User_id := r.1 |}.

Definition Product_of_record (r : Z * products_row) : Product :=
  {| Product_base := {| name := products_name r.2;
                        description := products_description r.2;
                        price := products_price r.2 |};
     Product_id := r.1 |}.

Definition Order_of_record (r : Z * orders_row) : Order :=
  {| Order_base := {| user_id := orders_user_id r.2;
                      product_id := orders_product_id r.2;
                      date := orders_date r.2;
                      status := orders_status r.2 |};
     Order_id := r.1 |}.

(** [values] given a whole [model_dump()] (the three [update] handlers):
    fields to columns, by name. *)
Definition users_values (u : NewUser) : users_row :=
  {| users_first_name := first_name u;
     users_last_name := last_name u;
     users_email := email u;
     users_password := password u |}.

Definition products_values (p : NewProduct) : products_row :=
  {| products_name := name p;
     products_description := description p;
     products_price := price p |}.

Definition orders_values (o : NewOrder) : orders_row :=
  {| orders_user_id := user_id o;
     orders_product_id := product_id o;
     orders_date := date o;
     orders_status := status o |}.

(** ** Resource endpoints (main.py, lines 94-207) *)

(** What a handler hands back to the framework: a value for the route's
    response model, or a ready [JSONResponse], which is sent as it is. *)
Inductive returned (A : Type) : Type :=
| Value (a : A)
| Direct (r : response).
Arguments Value {A} a.
Arguments Direct {A} r.

Definition ID_not_found : response :=
  JSONResponse (JObj [("error", JStr "ID not found")]) 404.

Definition read_all_users : DB (returned (list User)) :=
  all ← fetch_all users;
  mret (Value (User_of_record <$> all)).

(** A fetched record has five columns and is truthy; [None] is not. *)
Definition read_user (user_id : Z) : DB (returned User) :=
  user ← fetch_one users user_id;
  match user with
  | Some user => mret (Value (User_of_record user))
  | None => mret (Direct ID_not_found)
  end.

Definition read_all_products : DB (returned (list Product)) :=
  all ← fetch_all products;
  mret (Value (Product_of_record <$> all)).

Definition read_product (product_id : Z) : DB (returned Product) :=
  product ← fetch_one products product_id;
  match product with
  | Some product => mret (Value (Product_of_record product))
  | None => mret (Direct ID_not_found)
  end.

Definition read_all_orders : DB (returned (list Order)) :=
  all ← fetch_all orders;
  mret (Value (Order_of_record <$> all)).

Definition read_order_ (order_id : Z) : DB (returned Order) :=
  order ← fetch_one orders order_id;
  match order with
  | Some order => mret (Value (Order_of_record order))
  | None => mret (Direct ID_not_found)
  end.

Definition create_user (user : NewUser) : DB (returned User) :=
  last_id ← execute_insert users
    {| users_first_name := first_name user;
       users_last_name := last_name user;
       users_email := email user;
       users_password := password user |};
  mret (Value {| User_base := user; User_id := last_id |}).

Definition create_product (product : NewProduct) : DB (returned Product) :=
  last_id ← execute_insert products
    {| products_name := name product;
       products_description := description product;
       products_price := price product |};
  mret (Value {| Product_base := product; Product_id := last_id |}).

Definition create_order (order : NewOrder) : DB (returned Order) :=
  last_id ← execute_insert orders
    {| orders_user_id := user_id order;
       orders_product_id := product_id order;
       orders_date := date order;
       orders_status := status order |};
  mret (Value {| Order_base := order; Order_id := last_id |}).

Definition update_user (user_id : Z) (new_user : NewUser)
  : DB (returned User) :=
  _ ← execute_update users user_id (users_values new_user);
  mret (Value {| User_base := new_user; User_id := user_id |}).

Definition update_product (product_id : Z) (new_product : NewProduct)
  : DB (returned Product) :=
  _ ← execute_update products product_id (products_values new_product);
  mret (Value {| Product_base := new_product; Product_id := product_id |}).

Definition update_order (order_id : Z) (new_order : NewOrder)
  : DB (returned Order) :=
  _ ← execute_update orders order_id (orders_values new_order);
  mret (Value {| Order_base := new_order; Order_id := order_id |}).

Definition deleted (message : string) : json :=
  JObj [("message", JStr message)].

Definition delete_user (user_id : Z) : DB json :=
  _ ← execute_delete users user_id;
  mret (deleted "User deleted").

Definition delete_product (product_id : Z) : DB json :=
  _ ← execute_delete products product_id;
  mret (deleted "Product deleted").

Definition delete_order (order_id : Z) : DB json :=
  _ ← execute_delete orders order_id;
  mret (deleted "Order deleted").

(** ** The application: routes, request bodies, response models *)

Inductive entity : Type := Users | Products | Orders.

Inductive body : Type :=
| NewUser_json (b : NewUser)
| NewProduct_json (b : NewProduct)
| NewOrder_json (b : NewOrder_body).

(** Method and path, with the path parameter and the JSON body:
    [GET /e/], [GET /e/{id}], [POST /e/], [PUT /e/{id}], [DELETE /e/{id}],
    where a body goes to the routes of its own entity. *)
Inductive request : Type :=
| GET_all (e : entity)
| GET (e : entity) (id : Z)
| POST (b : body)
| PUT (id : Z) (b : body)
| DELETE (e : entity) (id : Z).

(** A body parameter: the handler runs only on a body without errors.
    The answer to a body with errors carries, for each error, the value
    that was rejected; when one of them is a float that is not finite the
    answer cannot be rendered, and the request ends in status 500. *)
Definition renderable (es : list error_detail) : bool :=
  forallb (fun e => json_compliant (input e)) es.

Definition with_body {A} (errors : list loc_item → A → list error_detail)
    (b : A) (handler : A → DB response) : DB response :=
  match errors [Key "body"] b with
  | [] => handler b
  | es =>
      if renderable es then mret (RequestValidationError es)
      else mret InternalServerError
  end.

(** An exception that the handler lets through is answered with status
    500. *)
Definition ServerErrorMiddleware (route : DB response) (d : database)
  : response * database :=
  match route d with
  | (Returns r, d') => (r, d')
  | (Raises _, d') => (InternalServerError, d')
  end.

(** [response_model=M]: a returned value is validated against [M] and sent
    as JSON with status 200; a returned [JSONResponse] is sent unchanged. *)
Definition response_model {A} (errors : list loc_item → A → list error_detail)
    (to_json : A → json) (r : returned A) : response :=
  match r with
  | Direct resp => resp
  | Value a =>
      match errors [Key "response"] a with
      | [] => JSONResponse (to_json a) 200
      | es => ResponseValidationError es
      end
  end.

Definition as_User : returned User → response :=
  response_model User_errors User_json.
Definition as_Product : returned Product → response :=
  response_model Product_errors Product_json.
Definition as_Order : returned Order → response :=
  response_model Order_errors Order_json.
Definition as_List {A} (errors : list loc_item → A → list error_detail)
    (to_json : A → json) : returned (list A) → response :=
  response_model (List_errors errors) (fun l => JArr (to_json <$> l)).

(** The routes of [app].  [date_default] is the [date] default that the
    import of the module fixed in [NewOrder]. *)
Definition app (date_default : datetime) (req : request) (d : database)
  : response * database :=
  ServerErrorMiddleware
  match req with
  | GET_all Users =>
      r ← read_all_users; mret (as_List User_errors User_json r)
  | GET Users user_id =>
      r ← read_user user_id; mret (as_User r)
  | GET_all Products =>
      r ← read_all_products; mret (as_List Product_errors Product_json r)
  | GET Products product_id =>
      r ← read_product product_id; mret (as_Product r)
  | GET_all Orders =>
      r ← read_all_orders; mret (as_List Order_errors Order_json r)
  | GET Orders order_id =>
      r ← read_order_ order_id; mret (as_Order r)
  | POST (NewUser_json b) =>
      with_body NewUser_errors b (fun user =>
        r ← create_user user; mret (as_User r))
  | POST (NewProduct_json b) =>
      with_body NewProduct_errors b (fun product =>
        r ← create_product product; mret (as_Product r))
  | POST (NewOrder_json b) =>
      with_body NewOrder_errors (NewOrder_of_body date_default b) (fun order =>
        r ← create_order order; mret (as_Order r))
  | PUT user_id (NewUser_json b) =>
      with_body NewUser_errors b (fun new_user =>
        r ← update_user user_id new_user; mret (as_User r))
  | PUT product_id (NewProduct_json b) =>
      with_body NewProduct_errors b (fun new_product =>
        r ← update_product product_id new_product; mret (as_Product r))
  | PUT order_id (NewOrder_json b) =>
      with_body NewOrder_errors (NewOrder_of_body date_default b)
        (fun new_order =>
           r ← update_order order_id new_order; mret (as_Order r))
  | DELETE Users user_id =>
      j ← delete_user user_id; mret (JSONResponse j 200)
  | DELETE Products product_id =>
      j ← delete_product product_id; mret (JSONResponse j 200)
  | DELETE Orders order_id =>
      j ← delete_order order_id; mret (JSONResponse j 200)
  end d.

(** The running process: the module is imported at [now], which fixes the
    [date] default, and then serves requests one at a time.  [serve] is
    told the time at which each request is processed; no handler reads the
    clock. *)
Record process : Type := {
  imported_at : datetime;
  connection : database
}.

Definition import_main (now : datetime) (d : database) : process :=
  {| imported_at := now; connection := d |}.

Definition serve (now : datetime) (req : request) (p : process)
  : response * process :=
  let '(r, d) := app (imported_at p) req (connection p) in
  (r, {| imported_at := imported_at p; connection := d |}).

(** Which entity a request addresses, and whether a table holds an id. *)
Definition entity_of_body (b : body) : entity :=
  match b with
  | NewUser_json _ => Users
  | NewProduct_json _ => Products
  | NewOrder_json _ => Orders
  end.

Definition entity_of (req : request) : entity :=
  match req with
  | GET_all e | GET e _ | DELETE e _ => e
  | POST b | PUT _ b => entity_of_body b
  end.

Definition has_id (e : entity) (i : Z) (d : database) : bool :=
  match e with
  | Users => bool_decide (is_Some (users_rows d !! i))
  | Products => bool_decide (is_Some (products_rows d !! i))
  | Orders => bool_decide (is_Some (orders_rows d !! i))
  end.

Definition body_errors (b : body) : list error_detail :=
  match b with
  | NewUser_json u => NewUser_errors [Key "body"] u
  | NewProduct_json p => NewProduct_errors [Key "body"] p
  | NewOrder_json _ => []
  end.

(** Sample data. *)
Definition alice : NewUser :=
  {| first_name := "Alice"; last_name := "Liddell";
     email := "alice@example.org"; password := "rabbit" |}.
Definition short_password_user : NewUser :=
  {| first_name := "Bob"; last_name := "Cratchit";
     email := "bob@example.org"; password := "12345" |}.
Definition widget : NewProduct :=
  {| name := "Widget"; description := "A widget";
     price := S754_finite false 5 1 |}.
Definition order11 : NewOrder_body :=
  {| body_user_id := 1; body_product_id := 1; body_date := None; body_status := None |}.

(** ** Vocabulary of the properties *)

(** The declared constraints, read off the [Field(...)] declarations. *)
Definition valid_NewUser (u : NewUser) : Prop :=
  (String.length (first_name u) ≤ 50)%nat ∧
  (String.length (last_name u) ≤ 150)%nat ∧
  (String.length (email u) ≤ 150)%nat ∧
  (6 ≤ String.length (password u))%nat.

Definition valid_NewProduct (p : NewProduct) : Prop :=
  (String.length (name p) ≤ 100)%nat ∧
  (String.length (description p) ≤ 1000)%nat ∧
  SFltb float_zero (price p) = true.

Definition valid_body (b : body) : Prop :=
  match b with
  | NewUser_json u => valid_NewUser u
  | NewProduct_json p => valid_NewProduct p
  | NewOrder_json _ => True
  end.

(** The stored shape a body makes with an id: the submitted fields, the
    defaults of the fields left out, and the id, as JSON. *)
Definition stored_shape (date_default : datetime) (b : body) (i : Z) : json :=
  match b with
  | NewUser_json u => User_json {| User_base := u; User_id := i |}
  | NewProduct_json p => Product_json {| Product_base := p; Product_id := i |}
  | NewOrder_json o =>
      Order_json {| Order_base := NewOrder_of_body date_default o;
                    Order_id := i |}
  end.

Definition delete_message (e : entity) : string :=
  match e with
  | Users => "User deleted"
  | Products => "Product deleted"
  | Orders => "Order deleted"
  end.



(** The number of rows of an entity's table. *)
Definition count (e : entity) (d : database) : nat :=
  match e with
  | Users => size (users_rows d)
  | Products => size (products_rows d)
  | Orders => size (orders_rows d)
  end.

(** Row [j] reads the same in all three tables of [d] and [d']. *)
Definition same_row (j : Z) (d d' : database) : Prop :=
  users_rows d' !! j = users_rows d !! j
  ∧ products_rows d' !! j = products_rows d !! j
  ∧ orders_rows d' !! j = orders_rows d !! j.

(** Every stored row meets the constraints of its response model. *)
Definition rows_valid (d : database) : Prop :=
  (∀ i row, users_rows d !! i = Some row →
            valid_NewUser (User_base (User_of_record (i, row))))
  ∧ (∀ i row, products_rows d !! i = Some row →
              valid_NewProduct (Product_base (Product_of_record (i, row)))).

Definition one_user : database :=
  (app 0 (POST (NewUser_json alice)) empty_database).2.

(** The integers that a body carries fit an INTEGER: the driver can bind
    them. *)
Definition body_fits (b : body) : bool :=
  match b with
  | NewOrder_json o =>
      Sqlite.fits_integer (body_user_id o)
      && Sqlite.fits_integer (body_product_id o)
  | NewUser_json _ | NewProduct_json _ => true
  end.

(** The price of a body is neither negative infinity nor a NaN, the two
    rejected prices that JSON text cannot express. *)
Definition price_renders (b : body) : bool :=
  match b with
  | NewProduct_json p =>
      match price p with
      | S754_nan | S754_infinity true => false
      | _ => true
      end
  | NewUser_json _ | NewOrder_json _ => true
  end.




(** ** Vocabulary of the further properties *)

#[global] Instance entity_eq_dec : EqDecision entity.
Proof. solve_decision. Defined.

(** Row [i] of an entity's table as its response model renders it, when
    the table holds the id. *)
Definition stored_json (e : entity) (i : Z) (d : database) : option json :=
  match e with
  | Users =>
      (fun row => User_json (User_of_record (i, row))) <$> users_rows d !! i
  | Products =>
      (fun row => Product_json (Product_of_record (i, row)))
        <$> products_rows d !! i
  | Orders =>
      (fun row => Order_json (Order_of_record (i, row)))
        <$> orders_rows d !! i
  end.

(** The id that the next insert into an entity's table gets. *)
Definition next_id (e : entity) (d : database) : Z :=
  match e with
  | Users => Sqlite.next_rowid (users_rows d)
  | Products => Sqlite.next_rowid (products_rows d)
  | Orders => Sqlite.next_rowid (orders_rows d)
  end.

(** The database with the fields of a body written at id [i] of the
    body's table. *)
Definition write_row (date_default : datetime) (b : body) (i : Z)
    (d : database) : database :=
  match b with
  | NewUser_json u =>
      with_rows users (<[i := users_values u]> (users_rows d)) d
  | NewProduct_json p =>
      with_rows products (<[i := products_values p]> (products_rows d)) d
  | NewOrder_json o =>
      with_rows orders
        (<[i := orders_values (NewOrder_of_body date_default o)]>
           (orders_rows d)) d
  end.

(** The statuses a route answers with when nothing is wrong with the
    stored rows. *)
Definition allowed_status (req : request) : list Z :=
  match req with
  | GET_all _ | DELETE _ _ => [200]
  | GET _ _ => [200; 404]
  | POST _ | PUT _ _ => [200; 422]
  end.



(** The driver can bind every integer of the request, and a price that
    the request carries is neither negative infinity nor a NaN. *)
Definition in_range (req : request) : bool :=
  match req with
  | GET_all _ => true
  | GET _ i | DELETE _ i => Sqlite.fits_integer i
  | POST b => body_fits b && price_renders b
  | PUT i b => Sqlite.fits_integer i && body_fits b && price_renders b
  end.

(** Two databases hold the same table of an entity. *)
Definition same_table (e : entity) (d d' : database) : Prop :=
  match e with
  | Users => users_rows d = users_rows d'
  | Products => products_rows d = products_rows d'
  | Orders => orders_rows d = orders_rows d'
  end.


Definition shipped_order : orders_row :=
  {| orders_user_id := 4; orders_product_id := 9;
     orders_date := 500; orders_status := "shipped" |}.

Definition one_order : database := Database ∅ ∅ {[ 7 := shipped_order ]}.

Definition one_product : database :=
  (app 0 (POST (NewProduct_json widget)) empty_database).2.

(** A users table with a row that the application could not have
    written: its password has five characters. *)
Definition foreign_row : database :=
  Database {[ 1 := users_values short_password_user ]} ∅ ∅.

(** ** The store *)

Section sqlite_facts.
Context {A : Type}.
Implicit Types (t : gmap Z A) (i k : Z) (row : A).

Lemma max_rowid_bounds t k :
  is_Some (t !! k) → ∃ m, Sqlite.max_rowid t = Some m ∧ k ≤ m.
Proof.
  intros [row Hk]. unfold Sqlite.max_rowid.
  assert (Hin : k ∈ (map_to_list t).*1).
  { apply list_elem_of_fmap. exists (k, row). split; [done|].
    by apply elem_of_map_to_list. }
  clear Hk. induction Hin as [k l|k k' l Hin IH]; simpl.
  - destruct (foldr _ None l); eexists; split; try done; lia.
  - destruct IH as (m & -> & Hle). eexists; split; [done|lia].
Qed.


Lemma unused_rowid_fresh t : t !! Sqlite.unused_rowid t = None.
Proof.
  unfold Sqlite.unused_rowid.
  destruct (list_find _ _) as [[n k]|] eqn:Hfind.
  - by apply list_find_Some in Hfind as (_ & Hk & _).
  - exfalso. apply list_find_None in Hfind.
    assert (Hsub : (list_to_set (seqZ 1 (Z.of_nat (S (size t)))) : gset Z)
                   ⊆ dom t).
    { intros k Hk%elem_of_list_to_set. apply elem_of_dom.
      rewrite Forall_forall in Hfind. apply not_eq_None_Some.
      by apply Hfind. }
    apply subseteq_size in Hsub.
    rewrite size_list_to_set in Hsub by apply NoDup_seqZ.
    rewrite length_seqZ, size_dom in Hsub. lia.
Qed.

Lemma next_rowid_fresh t : t !! Sqlite.next_rowid t = None.
Proof.
  unfold Sqlite.next_rowid.
  destruct (Sqlite.max_rowid t) as [m|] eqn:Hm.
  - case_decide as Hceiling; [|apply unused_rowid_fresh].
    destruct (t !! (m + 1)) as [row|] eqn:Hrow; [|done].
    destruct (max_rowid_bounds t (m + 1)) as (m' & Hm' & Hle);
      [by eexists|].
    rewrite Hm in Hm'. injection Hm' as <-. lia.
  - destruct (t !! 1) as [row|] eqn:Hrow; [|done].
    destruct (max_rowid_bounds t 1) as (m' & Hm' & _); [by eexists|].
    by rewrite Hm in Hm'.
Qed.

Lemma insert_lookup_new t row :
  (Sqlite.insert row t).1 !! (Sqlite.insert row t).2 = Some row.
Proof. unfold Sqlite.insert; simpl. apply lookup_insert_eq. Qed.

Lemma next_rowid_lookup_old t row k :
  is_Some (t !! k) → <[Sqlite.next_rowid t := row]> t !! k = t !! k.
Proof.
  intros Hk. apply lookup_insert_ne.
  intros <-. rewrite next_rowid_fresh in Hk. by destruct Hk.
Qed.

Lemma insert_lookup_old t row k :
  is_Some (t !! k) → (Sqlite.insert row t).1 !! k = t !! k.
Proof. apply next_rowid_lookup_old. Qed.

Lemma insert_size t row : size (Sqlite.insert row t).1 = S (size t).
Proof.
  unfold Sqlite.insert; simpl. apply map_size_insert_None, next_rowid_fresh.
Qed.

Lemma select_all_length t : length (Sqlite.select_all t) = size t.
Proof. unfold Sqlite.select_all. apply length_map_to_list. Qed.

Lemma update_missing t i row : t !! i = None → Sqlite.update_where_id i row t = t.
Proof.
  intros Hi. unfold Sqlite.update_where_id. apply map_eq; intros k.
  rewrite lookup_alter. case_decide; subst; by rewrite ?Hi.
Qed.

Lemma update_other t i row k :
  k ≠ i → Sqlite.update_where_id i row t !! k = t !! k.
Proof. intros Hk. unfold Sqlite.update_where_id. by apply lookup_alter_ne. Qed.

Lemma delete_other t i k :
  k ≠ i → Sqlite.delete_where_id i t !! k = t !! k.
Proof. intros Hk. unfold Sqlite.delete_where_id. by apply lookup_delete_ne. Qed.

Lemma delete_delete t i :
  Sqlite.delete_where_id i (Sqlite.delete_where_id i t)
  = Sqlite.delete_where_id i t.
Proof.
  unfold Sqlite.delete_where_id. apply delete_id, lookup_delete_eq.
Qed.

Lemma select_missing t i : t !! i = None → Sqlite.select_where_id i t = None.
Proof. intros Hi. unfold Sqlite.select_where_id. by rewrite Hi. Qed.
End sqlite_facts.

(** ** Validation *)

Lemma NewUser_errors_nil at_ u : NewUser_errors at_ u = [] ↔ valid_NewUser u.
Proof.
  unfold NewUser_errors, valid_NewUser, max_length, min_length.
  repeat case_decide; simpl; split; intros Hv; try done;
    try (destruct Hv as (? & ? & ? & ?); lia).
Qed.


Lemma NewProduct_errors_nil at_ p :
  NewProduct_errors at_ p = [] ↔ valid_NewProduct p.
Proof.
  unfold NewProduct_errors, valid_NewProduct, max_length, gt.
  repeat case_decide; destruct (SFltb float_zero (price p)); simpl;
    split; intros Hv; try done; try (destruct Hv as (? & ? & ?); done || lia).
Qed.

Lemma body_errors_nil b : body_errors b = [] ↔ valid_body b.
Proof.
  destruct b; simpl;
    [apply NewUser_errors_nil | apply NewProduct_errors_nil | done].
Qed.

Lemma imap_errors_nil {A} (errors : list loc_item → A → list error_detail)
    (f : nat → list loc_item) (l : list A) :
  (∀ a, a ∈ l → ∀ at', errors at' a = []) →
  concat (imap (fun i a => errors (f i) a) l) = [].
Proof.
  intros Hall.
  induction l as [|a l IH] in f, Hall |- *; [done|].
  simpl. rewrite Hall by apply list_elem_of_here. simpl.
  apply (IH (fun i => f (S i))).
  intros a' Ha'. apply Hall. by apply list_elem_of_further.
Qed.

Lemma List_errors_nil {A} (errors : list loc_item → A → list error_detail)
    at_ (l : list A) :
  (∀ a, a ∈ l → ∀ at', errors at' a = []) → List_errors errors at_ l = [].
Proof. apply (imap_errors_nil errors (fun i => at_ ++ [Index i])). Qed.

(** ** Running a route *)

Ltac run_app :=
  unfold app, ServerErrorMiddleware, with_body, as_User, as_Product,
    as_Order, as_List, response_model,
    read_all_users, read_user, read_all_products, read_product,
    read_all_orders, read_order_, create_user, create_product, create_order,
    update_user, update_product, update_order,
    delete_user, delete_product, delete_order,
    execute_insert, execute_update, execute_delete, fetch_all, fetch_one,
    Order_errors, NewOrder_errors, mbind, mret, DB_bind, DB_ret;
  cbn beta iota zeta;
  cbn [rows with_rows binds users products orders
       users_rows products_rows orders_rows andb].

Lemma has_id_false e i d :
  has_id e i d = false ↔
  match e with
  | Users => users_rows d !! i = None
  | Products => products_rows d !! i = None
  | Orders => orders_rows d !! i = None
  end.
Proof.
  destruct e; simpl; rewrite bool_decide_eq_false, eq_None_not_Some; done.
Qed.

Lemma database_eta d :
  Database (users_rows d) (products_rows d) (orders_rows d) = d.
Proof. by destruct d. Qed.

(** A valid body passes body validation, and the stored shape it makes
    passes the response model. *)
Lemma User_errors_valid at_ u i :
  valid_NewUser u → User_errors at_ {| User_base := u; User_id := i |} = [].
Proof. intros Hu. unfold User_errors; simpl. by apply NewUser_errors_nil. Qed.

Lemma Product_errors_valid at_ p i :
  valid_NewProduct p →
  Product_errors at_ {| Product_base := p; Product_id := i |} = [].
Proof.
  intros Hp. unfold Product_errors; simpl. by apply NewProduct_errors_nil.
Qed.

Lemma User_of_record_values i u :
  User_of_record (i, users_values u) = {| User_base := u; User_id := i |}.
Proof. by destruct u. Qed.

Lemma Product_of_record_values i p :
  Product_of_record (i, products_values p)
  = {| Product_base := p; Product_id := i |}.
Proof. by destruct p. Qed.

Lemma Order_of_record_values i o :
  Order_of_record (i, orders_values o) = {| Order_base := o; Order_id := i |}.
Proof. by destruct o. Qed.

(** ** Routes as equations *)

Section more_sqlite_facts.
Context {A : Type}.
Implicit Types (t : gmap Z A) (i k : Z) (row : A).

Lemma update_present t i row :
  is_Some (t !! i) → Sqlite.update_where_id i row t = <[i := row]> t.
Proof.
  intros [old Hi]. unfold Sqlite.update_where_id. apply map_eq; intros k.
  rewrite lookup_alter, lookup_insert. case_decide; subst; by rewrite ?Hi.
Qed.

Lemma update_update t i row row' :
  Sqlite.update_where_id i row' (Sqlite.update_where_id i row t)
  = Sqlite.update_where_id i row' t.
Proof.
  unfold Sqlite.update_where_id. apply map_eq; intros k.
  rewrite !lookup_alter. repeat case_decide; try done.
  by destruct (t !! i).
Qed.

Lemma update_is_Some t i row k :
  is_Some (Sqlite.update_where_id i row t !! k) ↔ is_Some (t !! k).
Proof.
  unfold Sqlite.update_where_id. rewrite lookup_alter.
  case_decide; [subst|done]. apply fmap_is_Some.
Qed.

Lemma update_size t i row : size (Sqlite.update_where_id i row t) = size t.
Proof.
  unfold Sqlite.update_where_id.
  rewrite <- !(size_dom (D := gset Z)). by rewrite dom_alter_L.
Qed.

Lemma insert_then_delete t row :
  Sqlite.delete_where_id (Sqlite.insert row t).2 (Sqlite.insert row t).1 = t.
Proof.
  unfold Sqlite.delete_where_id, Sqlite.insert; simpl.
  apply delete_insert_id, next_rowid_fresh.
Qed.

Lemma delete_size t i :
  size (Sqlite.delete_where_id i t)
  = if bool_decide (is_Some (t !! i)) then pred (size t) else size t.
Proof.
  unfold Sqlite.delete_where_id. case_bool_decide as Hi.
  - destruct Hi as [row Hi]. by rewrite (map_size_delete_Some i t).
  - apply eq_None_not_Some in Hi. by rewrite delete_id.
Qed.
End more_sqlite_facts.

Lemma has_id_true e i d : has_id e i d = true ↔ is_Some (stored_json e i d).
Proof.
  destruct e; simpl; rewrite bool_decide_eq_true, fmap_is_Some; done.
Qed.


(** Get by id of an id that the table does not hold: not-found when the
    id can be bound, OverflowError when it cannot. *)
Lemma app_GET_absent date_default e i d :
  has_id e i d = false →
  app date_default (GET e i) d
  = (if Sqlite.fits_integer i then ID_not_found else InternalServerError, d).
Proof.
  intros Hi%has_id_false.
  destruct e; run_app; rewrite select_missing by done;
    by destruct (Sqlite.fits_integer i).
Qed.

Lemma app_GET_missing date_default e i d :
  has_id e i d = false → Sqlite.fits_integer i = true →
  app date_default (GET e i) d = (ID_not_found, d).
Proof. intros Hi Hfits. rewrite app_GET_absent by done. by rewrite Hfits. Qed.

Lemma app_GET_unchanged date_default e i d :
  (app date_default (GET_all e) d).2 = d ∧ (app date_default (GET e i) d).2 = d.
Proof.
  split; destruct e; run_app; try done.
  - destruct (Sqlite.select_where_id i (users_rows d));
      [done | by destruct (Sqlite.fits_integer i)].
  - destruct (Sqlite.select_where_id i (products_rows d));
      [done | by destruct (Sqlite.fits_integer i)].
  - destruct (Sqlite.select_where_id i (orders_rows d));
      [done | by destruct (Sqlite.fits_integer i)].
Qed.

Lemma app_GET_valid date_default e i d :
  rows_valid d →
  app date_default (GET e i) d
  = (match stored_json e i d with
     | Some j => JSONResponse j 200
     | None =>
         if Sqlite.fits_integer i then ID_not_found else InternalServerError
     end, d).
Proof.
  intros [Husers Hproducts].
  destruct e; run_app; unfold Sqlite.select_where_id; cbn [stored_json].
  - destruct (users_rows d !! i) as [row|] eqn:Hrow;
      cbn [fmap option_fmap option_map];
      [|by destruct (Sqlite.fits_integer i)]. unfold User_errors.
    by rewrite (proj2 (NewUser_errors_nil _ _) (Husers i row Hrow)).
  - destruct (products_rows d !! i) as [row|] eqn:Hrow;
      cbn [fmap option_fmap option_map];
      [|by destruct (Sqlite.fits_integer i)]. unfold Product_errors.
    by rewrite (proj2 (NewProduct_errors_nil _ _) (Hproducts i row Hrow)).
  - destruct (orders_rows d !! i);
      [done | by destruct (Sqlite.fits_integer i)].
Qed.

Lemma body_fits_binds date_default o :
  binds orders (orders_values (NewOrder_of_body date_default o))
  = body_fits (NewOrder_json o).
Proof. done. Qed.

(** A create with a valid body: the answer and the database it leaves,
    when the driver can bind the body's integers and when it cannot. *)
Lemma app_POST_accepts date_default b d :
  valid_body b → body_fits b = true →
  app date_default (POST b) d
  = (JSONResponse
       (stored_shape date_default b (next_id (entity_of_body b) d)) 200,
     write_row date_default b (next_id (entity_of_body b) d) d).
Proof.
  intros Hb Hfits. destruct b as [u|p|o]; simpl in Hb, Hfits; run_app.
  - rewrite (proj2 (NewUser_errors_nil [Key "body"] u) Hb).
    unfold Sqlite.insert. by rewrite User_errors_valid.
  - rewrite (proj2 (NewProduct_errors_nil [Key "body"] p) Hb).
    unfold Sqlite.insert. by rewrite Product_errors_valid.
  - cbn [orders_user_id orders_product_id user_id product_id
         NewOrder_of_body]. rewrite Hfits. done.
Qed.

Lemma app_POST_overflow date_default b d :
  valid_body b → body_fits b = false →
  app date_default (POST b) d = (InternalServerError, d).
Proof.
  intros Hb Hfits. destruct b as [u|p|o]; simpl in Hb, Hfits; try done.
  run_app.
  cbn [orders_user_id orders_product_id user_id product_id NewOrder_of_body].
  by rewrite Hfits.
Qed.

(** A replace with a valid body. *)
Lemma app_PUT_accepts date_default i b d :
  valid_body b → body_fits b = true → Sqlite.fits_integer i = true →
  app date_default (PUT i b) d
  = (JSONResponse (stored_shape date_default b i) 200,
     if has_id (entity_of_body b) i d then write_row date_default b i d
     else d).
Proof.
  intros Hb Hfits Hi. destruct (has_id (entity_of_body b) i d) eqn:Hid.
  - destruct b as [u|p|o]; simpl in Hb, Hid, Hfits;
      apply bool_decide_eq_true in Hid; run_app.
    + rewrite (proj2 (NewUser_errors_nil [Key "body"] u) Hb), Hi.
      rewrite User_errors_valid by done. by rewrite update_present.
    + rewrite (proj2 (NewProduct_errors_nil [Key "body"] p) Hb), Hi.
      rewrite Product_errors_valid by done. by rewrite update_present.
    + cbn [orders_values orders_user_id orders_product_id user_id product_id
           NewOrder_of_body]. rewrite Hfits, Hi.
      by rewrite update_present.
  - apply has_id_false in Hid.
    destruct b as [u|p|o]; simpl in Hb, Hid, Hfits; run_app.
    + rewrite (proj2 (NewUser_errors_nil [Key "body"] u) Hb), Hi.
      rewrite User_errors_valid by done. rewrite update_missing by done.
      by rewrite database_eta.
    + rewrite (proj2 (NewProduct_errors_nil [Key "body"] p) Hb), Hi.
      rewrite Product_errors_valid by done. rewrite update_missing by done.
      by rewrite database_eta.
    + cbn [orders_values orders_user_id orders_product_id user_id product_id
           NewOrder_of_body]. rewrite Hfits, Hi.
      rewrite update_missing by done. by rewrite database_eta.
Qed.

Lemma app_PUT_overflow date_default i b d :
  valid_body b → body_fits b && Sqlite.fits_integer i = false →
  app date_default (PUT i b) d = (InternalServerError, d).
Proof.
  intros Hb Hfits. destruct b as [u|p|o]; simpl in Hb, Hfits; run_app.
  - rewrite (proj2 (NewUser_errors_nil [Key "body"] u) Hb). by rewrite Hfits.
  - rewrite (proj2 (NewProduct_errors_nil [Key "body"] p) Hb).
    by rewrite Hfits.
  - cbn [orders_values orders_user_id orders_product_id user_id product_id
         NewOrder_of_body]. by rewrite Hfits.
Qed.

(** A create or replace with a body that validation rejects. *)
Lemma with_body_rejects {A} (errors : list loc_item → A → list error_detail)
    (b : A) (handler : A → DB response) (d : database) :
  errors [Key "body"] b ≠ [] →
  ServerErrorMiddleware (with_body errors b handler) d
  = (if renderable (errors [Key "body"] b)
     then RequestValidationError (errors [Key "body"] b)
     else InternalServerError, d).
Proof.
  unfold with_body, ServerErrorMiddleware.
  destruct (errors _ b) as [|e es]; [done|].
  by destruct (renderable (e :: es)).
Qed.

Lemma app_rejects date_default (b : body) (i : Z) (d : database) :
  body_errors b ≠ [] →
  let answer := if renderable (body_errors b)
                then RequestValidationError (body_errors b)
                else InternalServerError in
  app date_default (POST b) d = (answer, d)
  ∧ app date_default (PUT i b) d = (answer, d).
Proof.
  intros Hb. destruct b as [u|p|o]; simpl in Hb; [| |done];
    split; by apply with_body_rejects.
Qed.

(** A delete. *)
Lemma app_DELETE date_default e i d :
  Sqlite.fits_integer i = true →
  app date_default (DELETE e i) d
  = (JSONResponse (deleted (delete_message e)) 200,
     match e with
     | Users => with_rows users (Sqlite.delete_where_id i (users_rows d)) d
     | Products =>
         with_rows products (Sqlite.delete_where_id i (products_rows d)) d
     | Orders => with_rows orders (Sqlite.delete_where_id i (orders_rows d)) d
     end).
Proof. intros Hi. destruct e; run_app; by rewrite Hi. Qed.

Lemma app_DELETE_overflow date_default e i d :
  Sqlite.fits_integer i = false →
  app date_default (DELETE e i) d = (InternalServerError, d).
Proof. intros Hi. destruct e; run_app; by rewrite Hi. Qed.


Lemma stored_json_written date_default b i d :
  stored_json (entity_of_body b) i (write_row date_default b i d)
  = Some (stored_shape date_default b i).
Proof.
  destruct b as [u|p|o]; simpl; rewrite lookup_insert_eq; simpl.
  - by rewrite User_of_record_values.
  - by rewrite Product_of_record_values.
  - by rewrite Order_of_record_values.
Qed.

Lemma has_id_write_row date_default b i d e j :
  has_id e j (write_row date_default b i d) = true
  ↔ has_id e j d = true ∨ (e = entity_of_body b ∧ j = i).
Proof.
  destruct b as [u|p|o], e; simpl; rewrite !bool_decide_eq_true;
    rewrite ?lookup_insert_is_Some'; intuition (congruence || eauto).
Qed.

(** ** Get by id *)

(** C3, as amended. For every id in the signed 64-bit range that the
    entity's table does not hold, Get by id answers the payload
    [{"error": "ID not found"}] with status 404: a [JSONResponse], not a
    fault, and the store is as before. *)
Theorem get_missing_id_not_found (date_default : datetime) (e : entity)
    (i : Z) (d : database) :
  Sqlite.fits_integer i = true →
  has_id e i d = false →
  app date_default (GET e i) d
  = (JSONResponse (JObj [("error", JStr "ID not found")]) 404, d)
  ∧ status_of (app date_default (GET e i) d).1 = 404.
Proof. intros Hfits Hi. by rewrite app_GET_missing. Qed.

Lemma get_missing_id_not_found_witness :
  app 0 (GET Products 7) empty_database
  = (JSONResponse (JObj [("error", JStr "ID not found")]) 404, empty_database)
  ∧ status_of (app 0 (GET Products 7) empty_database).1 = 404.
Proof.
  apply (get_missing_id_not_found 0 Products 7 empty_database); reflexivity.
Defined.

(** C3 as stated fails at the id 2^63, which no table holds: the id cannot
    be bound, the handler raises, and the answer is a server error, not
    the not-found payload. *)
Lemma get_missing_id_overflow :
  has_id Users (2 ^ 63) empty_database = false
  ∧ app 0 (GET Users (2 ^ 63)) empty_database
    = (InternalServerError, empty_database)
  ∧ status_of (app 0 (GET Users (2 ^ 63)) empty_database).1 = 500.
Proof. by vm_compute. Qed.

(** ** Create, then get *)



(** ** Replace by id and delete by id *)




(** C5, as amended. Deleting an id of the signed 64-bit range twice: both
    answers are the entity's fixed confirmation message with status 200,
    whatever the store holds, the id is gone after the first delete, and
    the second delete leaves the store as the first one left it. *)
Theorem delete_idempotent (date_default : datetime) (e : entity) (i : Z)
    (d : database) :
  Sqlite.fits_integer i = true →
  let once := app date_default (DELETE e i) d in
  let twice := app date_default (DELETE e i) once.2 in
  once.1 = JSONResponse (JObj [("message", JStr (delete_message e))]) 200
  ∧ twice.1 = once.1
  ∧ twice.2 = once.2
  ∧ has_id e i once.2 = false.
Proof.
  intros Hi. cbn zeta. rewrite !app_DELETE by done. cbn [fst snd].
  repeat split.
  - destruct e; cbn [with_rows users products orders
                       users_rows products_rows orders_rows];
      by rewrite delete_delete.
  - apply has_id_false.
    destruct e; cbn [with_rows users products orders
                       users_rows products_rows orders_rows];
      apply lookup_delete_eq.
Qed.

Lemma delete_idempotent_witness :
  let once := app 0 (DELETE Users 1) one_user in
  let twice := app 0 (DELETE Users 1) once.2 in
  once.1 = JSONResponse (JObj [("message", JStr "User deleted")]) 200
  ∧ twice.1 = once.1
  ∧ twice.2 = once.2
  ∧ has_id Users 1 once.2 = false.
Proof. apply (delete_idempotent 0 Users 1 one_user). reflexivity. Defined.

(** C5 as stated fails at the id 2^63: the id cannot be bound and the
    answer is a server error, not the confirmation message. *)
Lemma delete_overflow :
  app 0 (DELETE Users (2 ^ 63)) empty_database
  = (InternalServerError, empty_database)
  ∧ status_of (app 0 (DELETE Users (2 ^ 63)) empty_database).1 = 500.
Proof. by vm_compute. Qed.


(** ** Orders and the rows they refer to *)




(** ** Rejected bodies *)


(** The answer to a rejected body can be rendered unless the price is
    negative infinity or a NaN. *)
Lemma body_errors_renderable b :
  price_renders b = true → renderable (body_errors b) = true.
Proof.
  destruct b as [u|p|o]; simpl; [intros _| |done].
  - unfold NewUser_errors, max_length, min_length, renderable.
    by repeat case_decide.
  - unfold NewProduct_errors, max_length, gt, renderable.
    destruct (price p) as [s|[]| |s m e]; intros Hp; try done;
      repeat case_decide; simpl; try done;
      by destruct (SFltb _ _).
Qed.




(** ** Frame *)

Lemma app_other_tables date_default req d :
  let d' := (app date_default req d).2 in
  (entity_of req ≠ Users → users_rows d' = users_rows d)
  ∧ (entity_of req ≠ Products → products_rows d' = products_rows d)
  ∧ (entity_of req ≠ Orders → orders_rows d' = orders_rows d).
Proof.
  destruct req as [e|e i|b|i b|e i]; cbn zeta.
  - by rewrite (proj1 (app_GET_unchanged date_default e 0 d)).
  - by rewrite (proj2 (app_GET_unchanged date_default e i d)).
  - destruct (body_errors b) as [|err errs] eqn:Hb.
    + apply body_errors_nil in Hb. destruct (body_fits b) eqn:Hfits.
      * rewrite app_POST_accepts by done. by destruct b.
      * by rewrite app_POST_overflow.
    + destruct (app_rejects date_default b 0 d) as [-> _];
        [by rewrite Hb|]. done.
  - destruct (body_errors b) as [|err errs] eqn:Hb.
    + apply body_errors_nil in Hb.
      destruct (body_fits b && Sqlite.fits_integer i) eqn:Hfits.
      * apply andb_true_iff in Hfits as [Hfits Hi].
        rewrite app_PUT_accepts by done.
        destruct (has_id _ i d); [by destruct b | done].
      * by rewrite app_PUT_overflow.
    + destruct (app_rejects date_default b i d) as [_ ->];
        [by rewrite Hb|]. done.
  - destruct (Sqlite.fits_integer i) eqn:Hi.
    + rewrite app_DELETE by done. by destruct e.
    + by rewrite app_DELETE_overflow.
Qed.

Lemma same_row_refl j d : same_row j d d.
Proof. done. Qed.

Lemma app_PUT_other_rows date_default i b d j :
  j ≠ i → same_row j d (app date_default (PUT i b) d).2.
Proof.
  intros Hj. destruct (body_errors b) as [|err errs] eqn:Hb.
  - apply body_errors_nil in Hb.
    destruct (body_fits b && Sqlite.fits_integer i) eqn:Hfits.
    + apply andb_true_iff in Hfits as [Hfits Hi].
      rewrite app_PUT_accepts by done.
      destruct (has_id _ i d); [|done].
      unfold same_row. destruct b; simpl;
        rewrite ?lookup_insert_ne by done; done.
    + by rewrite app_PUT_overflow.
  - destruct (app_rejects date_default b i d) as [_ ->];
      [by rewrite Hb|]. done.
Qed.

Lemma app_DELETE_other_rows date_default e i d j :
  j ≠ i → same_row j d (app date_default (DELETE e i) d).2.
Proof.
  intros Hj. destruct (Sqlite.fits_integer i) eqn:Hi.
  - rewrite app_DELETE by done. unfold same_row.
    destruct e; simpl; rewrite ?delete_other by done; done.
  - by rewrite app_DELETE_overflow.
Qed.

Lemma app_POST_old_rows date_default b d j :
  has_id (entity_of_body b) j d = true →
  same_row j d (app date_default (POST b) d).2.
Proof.
  intros Hj. destruct (body_errors b) as [|err errs] eqn:Hb.
  - apply body_errors_nil in Hb. destruct (body_fits b) eqn:Hfits.
    + rewrite app_POST_accepts by done. unfold same_row.
      destruct b as [u|p|o]; simpl in Hj; apply bool_decide_eq_true in Hj;
        simpl; rewrite ?next_rowid_lookup_old by done; done.
    + by rewrite app_POST_overflow.
  - destruct (app_rejects date_default b 0 d) as [-> _];
      [by rewrite Hb|]. done.
Qed.

(** C9. A request changes nothing outside the row it addresses in its own
    entity's table: the two other tables are as before; List and Get
    change nothing; Replace and Delete by id leave every row with another
    id as it was; Create leaves every row that was there as it was. *)
Theorem requests_touch_only_their_row (date_default : datetime)
    (req : request) (d : database) :
  let d' := (app date_default req d).2 in
  (entity_of req ≠ Users → users_rows d' = users_rows d)
  ∧ (entity_of req ≠ Products → products_rows d' = products_rows d)
  ∧ (entity_of req ≠ Orders → orders_rows d' = orders_rows d)
  ∧ match req with
    | GET_all _ | GET _ _ => d' = d
    | PUT i _ | DELETE _ i => ∀ j : Z, j ≠ i → same_row j d d'
    | POST b =>
        ∀ j : Z, has_id (entity_of_body b) j d = true → same_row j d d'
    end.
Proof.
  cbn zeta.
  destruct (app_other_tables date_default req d) as (Hu & Hp & Ho).
  repeat split; try done.
  destruct req as [e|e i|b|i b|e i].
  - apply (app_GET_unchanged date_default e 0 d).
  - apply (app_GET_unchanged date_default e i d).
  - intros j. apply app_POST_old_rows.
  - intros j. apply app_PUT_other_rows.
  - intros j. apply app_DELETE_other_rows.
Qed.

Lemma requests_touch_only_their_row_witness :
  products_rows (app 0 (DELETE Users 2) one_user).2 = products_rows one_user
  ∧ orders_rows (app 0 (DELETE Users 2) one_user).2 = orders_rows one_user
  ∧ same_row 1 one_user (app 0 (DELETE Users 2) one_user).2.
Proof.
  destruct (requests_touch_only_their_row 0 (DELETE Users 2) one_user)
    as (_ & Hp & Ho & Hrow).
  split; [apply Hp; discriminate|].
  split; [apply Ho; discriminate|].
  apply Hrow. lia.
Defined.

(** ** Create N, then list *)

Lemma rows_valid_empty : rows_valid empty_database.
Proof. split; intros i row; simpl; by rewrite lookup_empty. Qed.

Lemma rows_valid_write_row date_default b i d :
  valid_body b → rows_valid d → rows_valid (write_row date_default b i d).
Proof.
  intros Hb [Husers Hproducts].
  destruct b as [u|p|o]; simpl in Hb; (split; [|]); simpl; try done.
  - intros k row [[<- <-]|[_ Hrow]]%lookup_insert_Some;
      [destruct u; exact Hb | exact (Husers k row Hrow)].
  - intros k row [[<- <-]|[_ Hrow]]%lookup_insert_Some;
      [destruct p; exact Hb | exact (Hproducts k row Hrow)].
Qed.



(** Listing a table whose rows are valid answers one record per row, and
    the records are the rows as their model renders them. *)
Lemma app_GET_all_items date_default e d :
  rows_valid d →
  ∃ items,
    app date_default (GET_all e) d = (JSONResponse (JArr items) 200, d)
    ∧ length items = count e d
    ∧ ∀ j, j ∈ items ↔ ∃ i, stored_json e i d = Some j.
Proof.
  intros [Husers Hproducts]. destruct e; run_app; unfold Sqlite.select_all.
  - rewrite List_errors_nil.
    + eexists; split; [done|]. split.
      { by rewrite !length_fmap, length_map_to_list. }
      intros j. rewrite <- list_fmap_compose, list_elem_of_fmap. simpl. split.
      * intros ([i row] & -> & Hrow%elem_of_map_to_list).
        exists i. by rewrite Hrow.
      * intros [i Hj]. destruct (users_rows d !! i) as [row|] eqn:Hrow;
          [|done]. exists (i, row). split; [by injection Hj|].
        by apply elem_of_map_to_list.
    + intros a ([i row] & -> & Hrow%elem_of_map_to_list)%list_elem_of_fmap at'.
      apply NewUser_errors_nil. by apply Husers.
  - rewrite List_errors_nil.
    + eexists; split; [done|]. split.
      { by rewrite !length_fmap, length_map_to_list. }
      intros j. rewrite <- list_fmap_compose, list_elem_of_fmap. simpl. split.
      * intros ([i row] & -> & Hrow%elem_of_map_to_list).
        exists i. by rewrite Hrow.
      * intros [i Hj]. destruct (products_rows d !! i) as [row|] eqn:Hrow;
          [|done]. exists (i, row). split; [by injection Hj|].
        by apply elem_of_map_to_list.
    + intros a ([i row] & -> & Hrow%elem_of_map_to_list)%list_elem_of_fmap at'.
      apply NewProduct_errors_nil. by apply Hproducts.
  - rewrite List_errors_nil by done.
    eexists; split; [done|]. split.
    { by rewrite !length_fmap, length_map_to_list. }
    intros j. rewrite <- list_fmap_compose, list_elem_of_fmap. simpl. split.
    * intros ([i row] & -> & Hrow%elem_of_map_to_list).
      exists i. by rewrite Hrow.
    * intros [i Hj]. destruct (orders_rows d !! i) as [row|] eqn:Hrow;
        [|done]. exists (i, row). split; [by injection Hj|].
      by apply elem_of_map_to_list.
Qed.

Lemma app_GET_all_valid date_default e d :
  rows_valid d →
  ∃ items, app date_default (GET_all e) d = (JSONResponse (JArr items) 200, d)
           ∧ length items = count e d.
Proof.
  intros Hd.
  destruct (app_GET_all_items date_default e d Hd) as (items & ? & ? & _).
  by exists items.
Qed.





(** ** The date of an order *)

(** What a create without [date] and [status] stores and answers, at
    whatever time it is served: the time of the import, and "created". *)
Lemma create_order_defaults (imported now : datetime) (u p : Z)
    (d : database) :
  Sqlite.fits_integer u = true → Sqlite.fits_integer p = true →
  let b := {| body_user_id := u; body_product_id := p;
              body_date := None; body_status := None |} in
  ∃ order_id p',
    serve now (POST (NewOrder_json b)) (import_main imported d)
    = (JSONResponse
         (JObj [("user_id", JInt u); ("product_id", JInt p);
                ("date", JDate imported); ("status", JStr "created");
                ("id", JInt order_id)]) 200, p')
    ∧ orders_rows (connection p') !! order_id
      = Some {| orders_user_id := u; orders_product_id := p;
                orders_date := imported; orders_status := "created" |}.
Proof.
  intros Hu Hp. cbn zeta. eexists _, _. unfold serve, import_main.
  cbn [imported_at connection]. rewrite app_POST_accepts; [|done|].
  - split; [reflexivity|]. simpl. by rewrite lookup_insert_eq.
  - simpl. by rewrite Hu, Hp.
Qed.

(** C2, at a failing input.  The module is imported at time 1000; one
    order without [date] is created at time 2000 and another at time 3000.
    Both answers, and both stored rows, carry the date 1000: neither is
    the time its request was processed, and the two are equal.  The
    status is "created" in both. *)
Theorem orders_without_date_share_import_time :
  let p0 := import_main 1000 empty_database in
  let first := serve 2000 (POST (NewOrder_json order11)) p0 in
  let second := serve 3000 (POST (NewOrder_json order11)) first.2 in
  first.1 = JSONResponse
              (JObj [("user_id", JInt 1); ("product_id", JInt 1);
                     ("date", JDate 1000); ("status", JStr "created");
                     ("id", JInt 1)]) 200
  ∧ second.1 = JSONResponse
                 (JObj [("user_id", JInt 1); ("product_id", JInt 1);
                        ("date", JDate 1000); ("status", JStr "created");
                        ("id", JInt 2)]) 200
  ∧ orders_date <$> orders_rows (connection second.2) !! 1 = Some 1000
  ∧ orders_date <$> orders_rows (connection second.2) !! 2 = Some 1000.
Proof. vm_compute. repeat split. Qed.

(** ** Create, then get: every entity *)



(** ** Replace, then get *)



(** ** Replace composes by overwriting *)

(** What a replace leaves: the database as it was, or the body written at
    the id of a row that was there. *)
Lemma app_PUT_state date_default i b d :
  (app date_default (PUT i b) d).2 = d
  ∨ (has_id (entity_of_body b) i d = true
     ∧ Sqlite.fits_integer i = true
     ∧ (app date_default (PUT i b) d).2 = write_row date_default b i d).
Proof.
  destruct (body_errors b) as [|err errs] eqn:Hb.
  - apply body_errors_nil in Hb.
    destruct (body_fits b && Sqlite.fits_integer i) eqn:Hfits.
    + apply andb_true_iff in Hfits as [Hfits Hi].
      rewrite app_PUT_accepts by done.
      destruct (has_id _ i d); [by right | by left].
    + left. by rewrite app_PUT_overflow.
  - left. destruct (app_rejects date_default b i d) as [_ ->];
      [by rewrite Hb|]. done.
Qed.




(** X4. A replace never creates and never removes a row: whatever the id
    and the body, valid or not, every table holds the same ids after it as
    before, and as many rows. *)
Theorem put_keeps_ids (date_default : datetime) (i : Z) (b : body)
    (d : database) (e : entity) (j : Z) :
  has_id e j (app date_default (PUT i b) d).2 = has_id e j d
  ∧ count e (app date_default (PUT i b) d).2 = count e d.
Proof.
  destruct (app_PUT_state date_default i b d) as [->|(Hid & _ & ->)];
    [done|].
  split.
  - apply eq_true_iff_eq. rewrite has_id_write_row. split; [|by left].
    intros [?|[-> ->]]; done.
  - destruct b as [u|p|o], e; simpl in *; try done;
      apply bool_decide_eq_true in Hid as [row Hrow];
      rewrite map_size_insert, Hrow; done.
Qed.

(** ** Create, then delete *)





(** ** Delete *)

(** X6. After a delete of an id of the signed 64-bit range, a get of the
    id answers not-found.  When the table held the id it has one row less;
    when it did not, the database is exactly as before. *)
Theorem delete_removes_one (date_default : datetime) (e : entity) (i : Z)
    (d : database) :
  Sqlite.fits_integer i = true →
  let d' := (app date_default (DELETE e i) d).2 in
  app date_default (GET e i) d'
  = (JSONResponse (JObj [("error", JStr "ID not found")]) 404, d')
  ∧ if has_id e i d then count e d' = pred (count e d) else d' = d.
Proof.
  intros Hfits. cbn zeta. rewrite app_DELETE by done. cbn [snd]. split.
  - apply app_GET_missing; [|done]. apply has_id_false.
    destruct e; simpl; apply lookup_delete_eq.
  - destruct (has_id e i d) eqn:Hi.
    + destruct e; simpl in *; rewrite delete_size; by rewrite Hi.
    + apply has_id_false in Hi. unfold Sqlite.delete_where_id.
      destruct e; simpl; rewrite delete_id by done; apply database_eta.
Qed.

Lemma delete_removes_one_witness :
  let d' := (app 0 (DELETE Users 1) one_user).2 in
  app 0 (GET Users 1) d'
  = (JSONResponse (JObj [("error", JStr "ID not found")]) 404, d')
  ∧ if has_id Users 1 one_user
    then count Users d' = pred (count Users one_user) else d' = one_user.
Proof. apply (delete_removes_one 0 Users 1 one_user). reflexivity. Defined.

(** ** Valid rows in, valid rows out *)

Lemma rows_valid_DELETE date_default e i d :
  rows_valid d → rows_valid (app date_default (DELETE e i) d).2.
Proof.
  intros Hd. destruct (Sqlite.fits_integer i) eqn:Hi;
    [|by rewrite app_DELETE_overflow].
  destruct Hd as [Husers Hproducts]. rewrite app_DELETE by done.
  unfold Sqlite.delete_where_id.
  destruct e; (split; [|]); simpl; try done.
  - intros k row [_ Hrow]%lookup_delete_Some. exact (Husers k row Hrow).
  - intros k row [_ Hrow]%lookup_delete_Some. exact (Hproducts k row Hrow).
Qed.

Lemma app_valid_step date_default req d :
  rows_valid d →
  rows_valid (app date_default req d).2
  ∧ (in_range req = true →
     status_of (app date_default req d).1 ∈ allowed_status req).
Proof.
  intros Hd. destruct req as [e|e i|b|i b|e i];
    cbn [allowed_status in_range].
  - destruct (app_GET_all_valid date_default e d Hd) as (items & -> & _).
    split; [done|]. intros _. apply list_elem_of_here.
  - rewrite app_GET_valid by done. split; [done|]. intros ->.
    destruct (stored_json e i d); simpl;
      [apply list_elem_of_here
      | apply list_elem_of_further, list_elem_of_here].
  - destruct (body_errors b) as [|err errs] eqn:Hb.
    + apply body_errors_nil in Hb. destruct (body_fits b) eqn:Hfits.
      * rewrite app_POST_accepts by done.
        split; [by apply rows_valid_write_row|].
        intros _. apply list_elem_of_here.
      * rewrite app_POST_overflow by done. by split.
    + destruct (app_rejects date_default b 0 d) as [-> _];
        [by rewrite Hb|].
      split; [done|]. intros [_ Hp]%andb_true_iff.
      rewrite body_errors_renderable by done.
      apply list_elem_of_further, list_elem_of_here.
  - destruct (body_errors b) as [|err errs] eqn:Hb.
    + apply body_errors_nil in Hb.
      destruct (body_fits b && Sqlite.fits_integer i) eqn:Hfits.
      * apply andb_true_iff in Hfits as [Hfits Hi].
        rewrite app_PUT_accepts by done.
        split; [|intros _; apply list_elem_of_here].
        destruct (has_id _ i d); [by apply rows_valid_write_row | done].
      * rewrite app_PUT_overflow by done. split; [done|].
        intros [[Hi Hfits']%andb_true_iff _]%andb_true_iff.
        by rewrite Hi, Hfits' in Hfits.
    + destruct (app_rejects date_default b i d) as [_ ->];
        [by rewrite Hb|].
      split; [done|]. intros [_ Hp]%andb_true_iff.
      rewrite body_errors_renderable by done.
      apply list_elem_of_further, list_elem_of_here.
  - split; [by apply rows_valid_DELETE|]. intros Hi.
    rewrite app_DELETE by done. apply list_elem_of_here.
Qed.



(** ** List and get agree *)

(** X8. On a database whose rows meet the constraints of their models,
    List answers 200 with one record per row, and the records are exactly
    those that Get by id answers with status 200: every listed record is
    the answer to a get of some id, and every such answer is listed. *)
Theorem list_agrees_with_get (date_default : datetime) (e : entity)
    (d : database) :
  rows_valid d →
  ∃ items : list json,
    app date_default (GET_all e) d = (JSONResponse (JArr items) 200, d)
    ∧ length items = count e d
    ∧ ∀ j : json,
        j ∈ items
        ↔ ∃ i : Z, app date_default (GET e i) d = (JSONResponse j 200, d).
Proof.
  intros Hd.
  destruct (app_GET_all_items date_default e d Hd)
    as (items & Hlist & Hlen & Hitems).
  exists items. split; [done|]. split; [done|].
  intros j. rewrite Hitems. split; intros [i Hi]; exists i.
  - rewrite app_GET_valid by done. by rewrite Hi.
  - rewrite app_GET_valid in Hi by done.
    destruct (stored_json e i d);
      [by injection Hi as -> | by destruct (Sqlite.fits_integer i)].
Qed.

Lemma list_agrees_with_get_witness :
  ∃ items : list json,
    app 0 (GET_all Users) one_user = (JSONResponse (JArr items) 200, one_user)
    ∧ length items = count Users one_user
    ∧ ∀ j : json,
        j ∈ items
        ↔ ∃ i : Z, app 0 (GET Users i) one_user
                   = (JSONResponse j 200, one_user).
Proof.
  apply (list_agrees_with_get 0 Users one_user).
  exact (proj1 (app_valid_step 0 (POST (NewUser_json alice)) empty_database
                  rows_valid_empty)).
Defined.

(** ** The ids that creates assign *)

Section rowid_facts.
Context {A : Type}.
Implicit Types (t : gmap Z A) (i k m : Z).

End rowid_facts.






(** ** No duplicate detection *)




(** ** Replacing an order without date and status *)

(** X11. Replacing an order that exists with a body that leaves out [date]
    and [status], the id, [user_id] and [product_id] being in the signed
    64-bit range, overwrites both: whatever the row held, it now has the
    status "created" and the date default of the model, next to the new
    [user_id] and [product_id]. *)
Theorem put_order_resets_defaults (date_default : datetime) (i u p : Z)
    (d : database) :
  Sqlite.fits_integer i = true →
  Sqlite.fits_integer u = true →
  Sqlite.fits_integer p = true →
  has_id Orders i d = true →
  let b := NewOrder_json {| body_user_id := u; body_product_id := p;
                            body_date := None; body_status := None |} in
  orders_rows (app date_default (PUT i b) d).2 !! i
  = Some {| orders_user_id := u; orders_product_id := p;
            orders_date := date_default; orders_status := "created" |}.
Proof.
  intros Hi Hu Hp Hid. cbn zeta. rewrite app_PUT_accepts; [|done| |done].
  - cbn [entity_of_body snd]. rewrite Hid. simpl. by rewrite lookup_insert_eq.
  - simpl. by rewrite Hu, Hp.
Qed.

Lemma put_order_resets_defaults_witness :
  orders_rows one_order !! 7 = Some shipped_order
  ∧ orders_rows
      (app 0 (PUT 7 (NewOrder_json {| body_user_id := 4; body_product_id := 9;
                                      body_date := None;
                                      body_status := None |}))
         one_order).2 !! 7
    = Some {| orders_user_id := 4; orders_product_id := 9;
              orders_date := 0; orders_status := "created" |}.
Proof.
  split; [reflexivity|].
  apply (put_order_resets_defaults 0 7 4 9 one_order); reflexivity.
Defined.

(** ** A stored row that breaks the response model *)

Lemma imap_errors_not_nil {A}
    (errors : list loc_item → A → list error_detail)
    (f : nat → list loc_item) (l : list A) (a : A) :
  a ∈ l → (∀ at', errors at' a ≠ []) →
  concat (imap (fun i a => errors (f i) a) l) ≠ [].
Proof.
  intros Ha Herr. induction l as [|a' l IH] in f, Ha |- *.
  - by apply not_elem_of_nil in Ha.
  - simpl. intros [Hhead Htail]%app_eq_nil.
    apply elem_of_cons in Ha as [<-|Ha]; [by apply (Herr (f 0%nat))|].
    by apply (IH (fun i => f (S i))).
Qed.

(** X12. When the users table holds a row that does not meet the
    constraints of [User] (the application never writes one), the get of
    its id is answered with a response-validation fault, status 500, not
    with the row, and so is the list of all users. *)
Theorem invalid_stored_user_is_server_fault (date_default : datetime)
    (i : Z) (row : users_row) (d : database) :
  users_rows d !! i = Some row →
  ¬ valid_NewUser (User_base (User_of_record (i, row))) →
  (∃ errors, app date_default (GET Users i) d
             = (ResponseValidationError errors, d))
  ∧ (∃ errors, app date_default (GET_all Users) d
               = (ResponseValidationError errors, d))
  ∧ status_of (app date_default (GET Users i) d).1 = 500
  ∧ status_of (app date_default (GET_all Users) d).1 = 500.
Proof.
  intros Hrow Hbad.
  assert (Herr : ∀ at', User_errors at' (User_of_record (i, row)) ≠ []).
  { intros at' Hnil. by apply Hbad, (NewUser_errors_nil at'). }
  assert (Hget : ∃ errors, app date_default (GET Users i) d
                           = (ResponseValidationError errors, d)).
  { run_app. unfold Sqlite.select_where_id. rewrite Hrow.
    cbn [fmap option_fmap option_map].
    specialize (Herr [Key "response"]).
    destruct (User_errors _ (User_of_record (i, row))); [done|by eexists]. }
  assert (Hlist : ∃ errors, app date_default (GET_all Users) d
                            = (ResponseValidationError errors, d)).
  { run_app. unfold Sqlite.select_all.
    assert (Hne : List_errors User_errors [Key "response"]
                    (User_of_record <$> map_to_list (users_rows d)) ≠ []).
    { apply (imap_errors_not_nil User_errors _ _ (User_of_record (i, row)));
        [|done].
      apply list_elem_of_fmap. exists (i, row). split; [done|].
      by apply elem_of_map_to_list. }
    destruct (List_errors _ _ _); [done|by eexists]. }
  split; [done|]. split; [done|].
  destruct Hget as [? ->], Hlist as [? ->]. done.
Qed.

Lemma invalid_stored_user_is_server_fault_witness :
  (∃ errors, app 0 (GET Users 1) foreign_row
             = (ResponseValidationError errors, foreign_row))
  ∧ (∃ errors, app 0 (GET_all Users) foreign_row
               = (ResponseValidationError errors, foreign_row))
  ∧ status_of (app 0 (GET Users 1) foreign_row).1 = 500
  ∧ status_of (app 0 (GET_all Users) foreign_row).1 = 500.
Proof.
  apply (invalid_stored_user_is_server_fault 0 1
           (users_values short_password_user) foreign_row).
  - reflexivity.
  - intros (_ & _ & _ & Hpassword). simpl in Hpassword. lia.
Defined.

(** ** Entities do not interact *)

Lemma same_table_refl e d : same_table e d d.
Proof. by destruct e. Qed.

Lemma same_table_sym e d d' : same_table e d d' → same_table e d' d.
Proof. by destruct e. Qed.

Lemma same_table_trans e d1 d2 d3 :
  same_table e d1 d2 → same_table e d2 d3 → same_table e d1 d3.
Proof. destruct e; simpl; congruence. Qed.

Lemma database_ext d d' : (∀ e, same_table e d d') → d = d'.
Proof.
  intros H. pose proof (H Users). pose proof (H Products).
  pose proof (H Orders). destruct d, d'; simpl in *; congruence.
Qed.

Lemma app_other_table date_default req d e :
  e ≠ entity_of req → same_table e (app date_default req d).2 d.
Proof.
  intros He.
  destruct (app_other_tables date_default req d) as (Hu & Hp & Ho).
  destruct e; simpl; [apply Hu | apply Hp | apply Ho]; congruence.
Qed.

Lemma app_own_table date_default req d d' :
  same_table (entity_of req) d d' →
  (app date_default req d).1 = (app date_default req d').1
  ∧ same_table (entity_of req) (app date_default req d).2
      (app date_default req d').2.
Proof.
  destruct req as [[]|[] i|[u|p|o]|i [u|p|o]|[] i];
    cbn [entity_of entity_of_body same_table]; intros Heq; run_app;
    rewrite ?Heq;
    repeat (match goal with
            | |- context [Sqlite.select_where_id ?k ?t] =>
                destruct (Sqlite.select_where_id k t)
            | |- context [Sqlite.fits_integer ?k] =>
                destruct (Sqlite.fits_integer k)
            | |- context [NewUser_errors ?a ?x] => destruct (NewUser_errors a x)
            | |- context [NewProduct_errors ?a ?x] =>
                destruct (NewProduct_errors a x)
            | |- context [renderable ?x] => destruct (renderable x)
            | |- context [User_errors ?a ?x] => destruct (User_errors a x)
            | |- context [Product_errors ?a ?x] =>
                destruct (Product_errors a x)
            | |- context [List_errors ?f ?a ?x] =>
                destruct (List_errors f a x)
            end; cbn beta iota zeta; cbn [andb]);
    unfold Sqlite.insert; cbn beta iota zeta; rewrite ?Heq; done.
Qed.

(** X13. What a request is answered, and what it makes of its own table,
    depends on that table alone: two databases that hold the same table of
    the request's entity give the same response and the same table after
    it, whatever their two other tables hold. *)
Theorem response_reads_own_table (date_default : datetime) (req : request)
    (d d' : database) :
  same_table (entity_of req) d d' →
  (app date_default req d).1 = (app date_default req d').1
  ∧ same_table (entity_of req) (app date_default req d).2
      (app date_default req d').2.
Proof. apply app_own_table. Qed.

Lemma response_reads_own_table_witness :
  (app 0 (POST (NewOrder_json order11)) one_user).1
  = (app 0 (POST (NewOrder_json order11)) one_product).1
  ∧ same_table Orders (app 0 (POST (NewOrder_json order11)) one_user).2
      (app 0 (POST (NewOrder_json order11)) one_product).2.
Proof.
  apply (response_reads_own_table 0 (POST (NewOrder_json order11))
           one_user one_product).
  reflexivity.
Defined.

(** X14. Two requests on different entities commute: served in either
    order they get the same two answers and leave the same database. *)
Theorem requests_on_different_entities_commute (date_default : datetime)
    (r1 r2 : request) (d : database) :
  entity_of r1 ≠ entity_of r2 →
  (app date_default r1 (app date_default r2 d).2).1
  = (app date_default r1 d).1
  ∧ (app date_default r2 (app date_default r1 d).2).1
    = (app date_default r2 d).1
  ∧ (app date_default r2 (app date_default r1 d).2).2
    = (app date_default r1 (app date_default r2 d).2).2.
Proof.
  intros Hne.
  assert (H1 : same_table (entity_of r1) (app date_default r2 d).2 d)
    by by apply app_other_table.
  assert (H2 : same_table (entity_of r2) (app date_default r1 d).2 d)
    by (apply app_other_table; congruence).
  destruct (app_own_table date_default r1 _ _ H1) as [Hr1 Ht1].
  destruct (app_own_table date_default r2 _ _ H2) as [Hr2 Ht2].
  split; [done|]. split; [done|].
  apply database_ext. intros e.
  destruct (decide (e = entity_of r1)) as [->|He1].
  - eapply same_table_trans; [by apply app_other_table|].
    by apply same_table_sym.
  - destruct (decide (e = entity_of r2)) as [->|He2].
    + eapply same_table_trans; [exact Ht2|].
      apply same_table_sym. by apply app_other_table.
    + eapply same_table_trans; [by apply app_other_table|].
      eapply same_table_trans; [by apply app_other_table|].
      apply same_table_sym.
      eapply same_table_trans; [by apply app_other_table|].
      by apply app_other_table.
Qed.

Lemma requests_on_different_entities_commute_witness :
  (app 0 (DELETE Users 1) (app 0 (POST (NewOrder_json order11)) one_user).2).1
  = (app 0 (DELETE Users 1) one_user).1
  ∧ (app 0 (POST (NewOrder_json order11)) (app 0 (DELETE Users 1) one_user).2).1
    = (app 0 (POST (NewOrder_json order11)) one_user).1
  ∧ (app 0 (POST (NewOrder_json order11)) (app 0 (DELETE Users 1) one_user).2).2
    = (app 0 (DELETE Users 1)
         (app 0 (POST (NewOrder_json order11)) one_user).2).2.
Proof.
  apply (requests_on_different_entities_commute 0 (DELETE Users 1)
           (POST (NewOrder_json order11)) one_user).
  discriminate.
Defined.
